(** * The legacy calculator: arithmetic operations, [divide] and the driver

    A shallow embedding of [legacy-code/main.c] and [legacy-code/utils.c].

    - C's [double] is IEEE-754 binary64, modelled by the Standard Library's
      [spec_float] at precision 53 and maximal exponent 1024; the C operators
      [+ - * / == >] are [SFadd], [SFsub], [SFmul], [SFdiv], [SFeqb] and
      [SFltb] at that format.
    - [CalculationResult] is a record; its [char error_message[256]] member is
      a list of characters, written by [strcpy] and read back, as [printf]'s
      [%s] does, up to the first NUL.
    - A local variable that the source does not initialise starts with
      arbitrary contents, passed as an argument.
    - [main] runs in a small state monad over the text written to standard
      output and the log of the arithmetic functions it called. *)

From Stdlib Require Import ZArith List Bool Ascii String Lia.
From Stdlib Require Import Floats.SpecFloat.
Import ListNotations.

Local Open Scope Z_scope.

(** ** IEEE-754 double precision *)

Module Double.

Definition prec : Z := 53.
Definition emax : Z := 1024.

Definition double : Type := spec_float.

(** The values of the format among all of [spec_float]. *)
Definition is_double (x : double) : bool := valid_binary prec emax x.

(** The literal [0.0] and its negative twin. *)
Definition zero : double := S754_zero false.
Definition neg_zero : double := S754_zero true.
Definition nan : double := S754_nan.

Definition fadd (a b : double) : double := SFadd prec emax a b.
Definition fsub (a b : double) : double := SFsub prec emax a b.
Definition fmul (a b : double) : double := SFmul prec emax a b.
Definition fdiv (a b : double) : double := SFdiv prec emax a b.

(** [a == b] and [a > b] of C; both are false when an operand is NaN. *)
Definition feq (a b : double) : bool := SFeqb a b.
Definition fgt (a b : double) : bool := SFltb b a.

(** An integer literal as a double, for examples. *)
Definition of_Z (z : Z) : double :=
  match z with
  | Z0 => zero
  | Zpos p => binary_normalize prec emax (Zpos p) 0 false
  | Zneg p => binary_normalize prec emax (Zneg p) 0 true
  end.

(** The smallest positive subnormal double, 2^-1074. *)
Definition min_subnormal : double := S754_finite false 1 (-1074).

End Double.

Import Double.

(** ** C strings in fixed character arrays *)

Definition NUL : ascii := Ascii.zero.

(** [strcpy(dst, src)]: the characters of [src] and the terminating NUL
    overwrite the front of [dst]; the rest of [dst] keeps its contents. *)
Definition strcpy (dst : list ascii) (src : string) : list ascii :=
  list_ascii_of_string src ++ NUL :: skipn (S (String.length src)) dst.

(** The string held in a character array: the characters before the first
    NUL. *)
Fixpoint cstring (buf : list ascii) : string :=
  match buf with
  | [] => EmptyString
  | c :: rest =>
      if Ascii.eqb c NUL then EmptyString else String c (cstring rest)
  end.

(** No NUL inside a string literal. *)
Fixpoint nul_free (s : string) : bool :=
  match s with
  | EmptyString => true
  | String c rest => negb (Ascii.eqb c NUL) && nul_free rest
  end.

(** ** main.c: the result structure and the four operations *)

Record CalculationResult : Type := mkCalculationResult {
  result : double;
  error_code : Z;
  error_message : list ascii
}.

(** What a reader of the structure can observe: the two scalar members and
    the string in [error_message]. *)
Definition observe (r : CalculationResult) : double * Z * string :=
  (result r, error_code r, cstring (error_message r)).

Definition add (a b : double) : double := fadd a b.

Definition subtract (a b : double) : double := fsub a b.

Definition multiply (a b : double) : double := fmul a b.

(** Assignment to one member of the structure. *)
Definition set_result (r : CalculationResult) (v : double) :=
  mkCalculationResult v (error_code r) (error_message r).
Definition set_error_code (r : CalculationResult) (v : Z) :=
  mkCalculationResult (result r) v (error_message r).
Definition set_error_message (r : CalculationResult) (v : list ascii) :=
  mkCalculationResult (result r) (error_code r) v.

(** [calc_result] is the uninitialised local of [divide]; the assignments
    follow the source line by line. *)
Definition divide (calc_result : CalculationResult) (a b : double)
  : CalculationResult :=
  let calc_result := set_error_code calc_result 0 in
  if feq b zero then
    let calc_result := set_error_code calc_result 1 in
    let calc_result :=
      set_error_message calc_result
        (strcpy (error_message calc_result) "Division by zero error") in
    let calc_result := set_result calc_result zero in
    calc_result
  else
    let calc_result := set_result calc_result (fdiv a b) in
    let calc_result :=
      set_error_message calc_result
        (strcpy (error_message calc_result) "") in
    calc_result.

(** The invariant the data model states for a [CalculationResult]:
    code 1 comes with a result equal to 0.0 and a message, code 0 with the
    empty message. *)
Definition message_empty (r : CalculationResult) : bool :=
  match cstring (error_message r) with
  | EmptyString => true
  | String _ _ => false
  end.

Definition invariant (r : CalculationResult) : bool :=
  (if error_code r =? 1
   then feq (result r) zero && negb (message_empty r) else true)
  && (if error_code r =? 0 then message_empty r else true).

(** ** utils.c *)

Definition is_positive (number : double) : Z :=
  if fgt number zero then 1 else 0.

Definition get_max (a b : double) : double :=
  if fgt a b then a else b.

Section Utils.

(** The text the C library produces for a format string and one [double]
    argument, before any truncation. *)
Variable c_format : string -> double -> string.

(** [snprintf(buffer, size, format, value)]: at most [size - 1] characters of
    the text and a terminating NUL overwrite the front of [buffer]; nothing
    is written when [size] is 0. *)
Definition snprintf (buffer : list ascii) (size : nat) (format : string)
    (value : double) : list ascii :=
  match size with
  | O => buffer
  | S room => strcpy buffer (substring 0 room (c_format format value))
  end.

(** A pointer argument is [None] when it is [NULL]; the function returns
    what [buffer] points to after the call. *)
Definition format_message (buffer : option (list ascii))
    (format : option string) (value : double) : option (list ascii) :=
  match buffer, format with
  | None, _ => buffer
  | Some _, None => buffer
  | Some chars, Some fmt => Some (snprintf chars 256 fmt value)
  end.

End Utils.

(** ** main.c: the driver *)

(** The arithmetic functions [main] can call, with their operands. *)
Inductive call : Type :=
| CallAdd (a b : double)
| CallSubtract (a b : double)
| CallMultiply (a b : double)
| CallDivide (a b : double).

(** What the three [scanf] calls leave in [num1], [operation] and [num2]. *)
Record input : Type := mkInput {
  num1 : double;
  operation : ascii;
  num2 : double
}.

Record world : Type := mkWorld {
  stdout : string;
  calls : list call
}.

Definition start : world := mkWorld EmptyString [].

Module Run.

(** A computation reads the scanned input and extends the world. *)
Definition M (A : Type) : Type := input -> world -> A * world.

Definition ret {A} (x : A) : M A := fun _ w => (x, w).

Definition bind {A B} (m : M A) (k : A -> M B) : M B :=
  fun i w => let (x, w') := m i w in k x i w'.

Definition scan {A} (field : input -> A) : M A := fun i w => (field i, w).

Definition write (s : string) : M unit :=
  fun _ w => (tt, mkWorld (stdout w ++ s) (calls w)).

Definition log (c : call) : M unit :=
  fun _ w => (tt, mkWorld (stdout w) (calls w ++ [c])).

End Run.

Import Run.

Notation "x <- m ;; k" := (bind m (fun x => k))
  (at level 61, m at next level, right associativity).
Notation "m ;; k" := (bind m (fun _ => k))
  (at level 61, right associativity).

Inductive printf_arg : Type :=
| ArgDouble (d : double)
| ArgString (buf : list ascii).

Section Driver.

(** The C library's rendering of a double under [%.2f]. *)
Variable format_2f : double -> string.

(** The text [printf] produces for the directives the program uses,
    [%s] and [%.2f]; a directive without a matching argument is copied. *)
Fixpoint sprintf (fmt : string) (args : list printf_arg) : string :=
  match fmt with
  | EmptyString => EmptyString
  | String "%" (String "s" rest as tail) =>
      match args with
      | ArgString buf :: args' => cstring buf ++ sprintf rest args'
      | _ => String "%" (sprintf tail args)
      end
  | String "%" (String "." (String "2" (String "f" rest)) as tail) =>
      match args with
      | ArgDouble d :: args' => format_2f d ++ sprintf rest args'
      | _ => String "%" (sprintf tail args)
      end
  | String c rest => String c (sprintf rest args)
  end.

Definition printf (fmt : string) (args : list printf_arg) : M unit :=
  write (sprintf fmt args).

Definition call_add (a b : double) : M double :=
  log (CallAdd a b) ;; ret (add a b).
Definition call_subtract (a b : double) : M double :=
  log (CallSubtract a b) ;; ret (subtract a b).
Definition call_multiply (a b : double) : M double :=
  log (CallMultiply a b) ;; ret (multiply a b).
Definition call_divide (frame : CalculationResult) (a b : double)
  : M CalculationResult :=
  log (CallDivide a b) ;; ret (divide frame a b).

Definition newline : string := String "010" EmptyString.

(** The [switch]: [Some v] when a case executes [return v], [None] when it
    leaves through [break]. [result0] is the uninitialised [result] of [main],
    [frame] the uninitialised local of the call of [divide]. *)
Definition dispatch (result0 frame : CalculationResult)
    (num1 : double) (operation : ascii) (num2 : double) : M (option Z) :=
  if Ascii.eqb operation "+" then
    v <- call_add num1 num2 ;;
    let result1 := set_error_code (set_result result0 v) 0 in
    printf ("Result: %.2f" ++ newline) [ArgDouble (result result1)] ;;
    ret None
  else if Ascii.eqb operation "-" then
    v <- call_subtract num1 num2 ;;
    let result1 := set_error_code (set_result result0 v) 0 in
    printf ("Result: %.2f" ++ newline) [ArgDouble (result result1)] ;;
    ret None
  else if Ascii.eqb operation "*" then
    v <- call_multiply num1 num2 ;;
    let result1 := set_error_code (set_result result0 v) 0 in
    printf ("Result: %.2f" ++ newline) [ArgDouble (result result1)] ;;
    ret None
  else if Ascii.eqb operation "/" then
    result1 <- call_divide frame num1 num2 ;;
    if error_code result1 =? 0 then
      printf ("Result: %.2f" ++ newline) [ArgDouble (result result1)] ;;
      ret None
    else
      printf ("Error: %s" ++ newline) [ArgString (error_message result1)] ;;
      ret (Some 1)
  else
    printf ("Invalid operation!" ++ newline) [] ;;
    ret (Some 1).

Definition main (result0 frame : CalculationResult) : M Z :=
  printf ("=== Legacy C Calculator ===" ++ newline) [] ;;
  printf "Enter first number: " [] ;;
  num1 <- scan num1 ;;
  printf "Enter operation (+, -, *, /): " [] ;;
  operation <- scan operation ;;
  printf "Enter second number: " [] ;;
  num2 <- scan num2 ;;
  returned <- dispatch result0 frame num1 operation num2 ;;
  match returned with
  | Some status => ret status
  | None => ret 0
  end.

(** Everything [main] has written when it reaches the [switch]. *)
Definition prompts : string :=
  "=== Legacy C Calculator ===" ++ newline
  ++ "Enter first number: "
  ++ "Enter operation (+, -, *, /): "
  ++ "Enter second number: ".

(** One run of the program: exit status, standard output, calls made. *)
Definition run (result0 frame : CalculationResult) (i : input)
  : Z * string * list call :=
  let (status, w) := main result0 frame i start in
  (status, stdout w, calls w).

End Driver.

(** * Properties *)

(** ** Character arrays *)

Lemma cstring_app_nul (s : string) (tail : list ascii) :
  nul_free s = true ->
  cstring (list_ascii_of_string s ++ NUL :: tail) = s.
Proof.
  induction s as [|c s IH]; intros Hs.
  - reflexivity.
  - cbn in Hs. apply andb_prop in Hs as [Hc Hrest].
    cbn. apply negb_true_iff in Hc. rewrite Hc.
    now rewrite (IH Hrest).
Qed.

(** Reading back what [strcpy] wrote gives the source string, whatever the
    array held before. *)
Lemma cstring_strcpy (dst : list ascii) (src : string) :
  nul_free src = true -> cstring (strcpy dst src) = src.
Proof. intros H. unfold strcpy. now apply cstring_app_nul. Qed.

Lemma length_list_ascii_of_string (s : string) :
  List.length (list_ascii_of_string s) = String.length s.
Proof. induction s as [|c s IH]; cbn; congruence. Qed.

(** [strcpy] stays inside the array when the string and its NUL fit. *)
Lemma strcpy_length (dst : list ascii) (src : string) :
  (S (String.length src) <= List.length dst)%nat ->
  List.length (strcpy dst src) = List.length dst.
Proof.
  intros H. unfold strcpy.
  rewrite length_app, length_list_ascii_of_string. cbn [List.length].
  rewrite length_skipn. lia.
Qed.

(** ** Comparisons of doubles *)

(** Only the two zeros compare equal to [0.0]. *)
Lemma feq_zero_iff (b : double) :
  feq b zero = true <-> b = zero \/ b = neg_zero.
Proof.
  unfold feq, SFeqb, zero, neg_zero. split.
  - destruct b as [[|]|[|]| |[|] m e]; cbn; intros H;
      try discriminate; auto.
  - intros [-> | ->]; reflexivity.
Qed.

Lemma feq_finite_zero (s : bool) (m : positive) (e : Z) :
  feq (S754_finite s m e) zero = false.
Proof. now destruct s. Qed.

Lemma feq_nan_zero : feq nan zero = false.
Proof. reflexivity. Qed.

Lemma compare_cont_swap (p q : positive) (c : comparison) :
  Pos.compare_cont (CompOpp c) q p = CompOpp (Pos.compare_cont c p q).
Proof. symmetry. apply Pos.compare_cont_antisym. Qed.

(** Swapping the operands of the IEEE comparison flips its verdict. *)
Lemma SFcompare_swap (a b : double) :
  SFcompare b a = option_map CompOpp (SFcompare a b).
Proof.
  destruct a as [sa|sa| |sa ma ea], b as [sb|sb| |sb mb eb];
    try reflexivity;
    try (destruct sa; reflexivity);
    try (destruct sb; reflexivity);
    try (destruct sa, sb; reflexivity).
  cbn. destruct sa, sb; try reflexivity;
    rewrite (Z.compare_antisym ea eb);
    destruct (ea ?= eb); cbn; try reflexivity;
    change Eq with (CompOpp Eq) at 1;
    now rewrite (compare_cont_swap ma mb Eq), ?CompOpp_involutive.
Qed.

(** [a > b] holds exactly when the comparison of [a] with [b] says
    "greater". *)
Lemma fgt_compare (a b : double) :
  fgt a b = true <-> SFcompare a b = Some Gt.
Proof.
  unfold fgt, SFltb. rewrite (SFcompare_swap a b).
  destruct (SFcompare a b) as [[| |]|]; cbn; split; congruence.
Qed.

Lemma fgt_nan_l (b : double) : fgt nan b = false.
Proof. now destruct b. Qed.

Lemma fgt_nan_r (a : double) : fgt a nan = false.
Proof. now destruct a. Qed.

(** ** The two branches of [divide] *)

Lemma observe_inv (r : CalculationResult) (x : double) (c : Z) (m : string) :
  observe r = (x, c, m) ->
  result r = x /\ error_code r = c /\ cstring (error_message r) = m.
Proof. unfold observe. intros H. injection H as Hr Hc Hm. auto. Qed.

Lemma divide_error_branch (frame : CalculationResult) (a b : double) :
  feq b zero = true ->
  observe (divide frame a b) = (zero, 1, "Division by zero error"%string).
Proof.
  intros Hb. unfold divide. rewrite Hb. unfold observe.
  cbn [result error_code error_message set_result set_error_code
       set_error_message].
  now rewrite cstring_strcpy.
Qed.

Lemma divide_success_branch (frame : CalculationResult) (a b : double) :
  feq b zero = false ->
  observe (divide frame a b) = (fdiv a b, 0, EmptyString).
Proof.
  intros Hb. unfold divide. rewrite Hb. reflexivity.
Qed.

Lemma feq_zero_dec (b : double) : {feq b zero = true} + {feq b zero = false}.
Proof. destruct (feq b zero); [left | right]; reflexivity. Defined.

(** The message array keeps its 256 characters: both strings fit. *)
Lemma divide_message_length (frame : CalculationResult) (a b : double) :
  List.length (error_message frame) = 256%nat ->
  List.length (error_message (divide frame a b)) = 256%nat.
Proof.
  intros H. unfold divide.
  destruct (feq b zero);
    cbn [result error_code error_message set_result set_error_code
         set_error_message];
    rewrite strcpy_length; auto; rewrite H; cbn; lia.
Qed.

(** ** The driver, case by case *)

Local Open Scope string_scope.

Ltac run_main :=
  unfold run, main, dispatch, call_add, call_subtract, call_multiply,
    call_divide, printf, bind, ret, scan, write, log, start;
  cbn [num1 num2 operation].

Lemma run_divide_case (format_2f : double -> string)
    (result0 frame : CalculationResult) (i : input) :
  operation i = "/"%char ->
  run format_2f result0 frame i =
    let r := divide frame (num1 i) (num2 i) in
    (if (error_code r =? 0)%Z then 0 else 1,
     prompts ++
       (if (error_code r =? 0)%Z
        then "Result: " ++ format_2f (result r) ++ newline
        else "Error: " ++ cstring (error_message r) ++ newline),
     [CallDivide (num1 i) (num2 i)]).
Proof.
  intros Hop. run_main. rewrite Hop. cbn [Ascii.eqb Bool.eqb].
  cbv zeta.
  destruct (error_code (divide frame (num1 i) (num2 i)) =? 0)%Z; reflexivity.
Qed.

Lemma run_default_case (format_2f : double -> string)
    (result0 frame : CalculationResult) (i : input) :
  operation i <> "+"%char -> operation i <> "-"%char ->
  operation i <> "*"%char -> operation i <> "/"%char ->
  run format_2f result0 frame i =
    (1, prompts ++ "Invalid operation!" ++ newline, []).
Proof.
  intros Hadd Hsub Hmul Hdiv. run_main.
  apply Ascii.eqb_neq in Hadd, Hsub, Hmul, Hdiv.
  rewrite Hadd, Hsub, Hmul, Hdiv. reflexivity.
Qed.

Lemma divide_error_code (frame : CalculationResult) (a b : double) :
  error_code (divide frame a b) = if feq b zero then 1 else 0.
Proof. unfold divide. destruct (feq b zero); reflexivity. Qed.

(** ** The operations on concrete operands *)

Example add_10_5 : add (of_Z 10) (of_Z 5) = of_Z 15.
Proof. reflexivity. Qed.

Example subtract_10_5 : subtract (of_Z 10) (of_Z 5) = of_Z 5.
Proof. reflexivity. Qed.

Example multiply_9_3 : multiply (of_Z 9) (of_Z 3) = of_Z 27.
Proof. reflexivity. Qed.

(** 10 / 4 is 2.5, that is 5 * 2^-1. *)
Example divide_10_4 :
  observe (divide (mkCalculationResult nan 7 []) (of_Z 10) (of_Z 4))
    = (binary_normalize prec emax 5 (-1) false, 0, "").
Proof. reflexivity. Qed.

Example divide_7_0 :
  observe (divide (mkCalculationResult nan 7 []) (of_Z 7) zero)
    = (zero, 1, "Division by zero error").
Proof. reflexivity. Qed.

(** Overflow and invalid operations give infinities and NaN, not errors. *)
Example multiply_overflows :
  multiply (SFmax_float prec emax) (of_Z 2) = S754_infinity false.
Proof. reflexivity. Qed.

Example add_opposite_infinities :
  add (S754_infinity false) (S754_infinity true) = nan.
Proof. reflexivity. Qed.

(** A divisor that is NaN is not equal to 0.0: the quotient is computed. *)
Example divide_by_nan :
  observe (divide (mkCalculationResult nan 7 []) (of_Z 1) nan) = (nan, 0, "").
Proof. reflexivity. Qed.

Example run_10_plus_5 :
  let junk := mkCalculationResult nan 7 [] in
  run (fun _ => "15.00") junk junk (mkInput (of_Z 10) "+" (of_Z 5))
    = (0, prompts ++ "Result: 15.00" ++ newline,
       [CallAdd (of_Z 10) (of_Z 5)]).
Proof. reflexivity. Qed.

(** * The claims *)

(** C1. For every double [a], [divide(a, 0.0)] returns error code 1, result
    0.0 and exactly the message "Division by zero error", whatever the
    uninitialised local held. *)
Theorem divide_by_zero (frame : CalculationResult) (a : double) :
  result (divide frame a zero) = zero /\
  error_code (divide frame a zero) = 1 /\
  cstring (error_message (divide frame a zero)) = "Division by zero error"%string.
Proof.
  exact (observe_inv _ _ _ _ (divide_error_branch frame a zero eq_refl)).
Qed.

(** C2. For all doubles [a], [b] with [b != 0.0], [divide(a, b)] returns
    error code 0, the IEEE-754 binary64 quotient [a / b] as result and the
    empty message. *)
Theorem divide_nonzero (frame : CalculationResult) (a b : double) :
  feq b zero = false ->
  error_code (divide frame a b) = 0 /\
  result (divide frame a b) = SFdiv 53 1024 a b /\
  cstring (error_message (divide frame a b)) = EmptyString.
Proof.
  intros Hb.
  destruct (observe_inv _ _ _ _ (divide_success_branch frame a b Hb))
    as (Hr & Hc & Hm).
  auto.
Qed.

Lemma divide_nonzero_witness :
  let frame := mkCalculationResult nan 7 [] in
  feq (of_Z 4) zero = false /\
  error_code (divide frame (of_Z 10) (of_Z 4)) = 0 /\
  result (divide frame (of_Z 10) (of_Z 4)) = SFdiv 53 1024 (of_Z 10) (of_Z 4) /\
  cstring (error_message (divide frame (of_Z 10) (of_Z 4))) = EmptyString.
Proof.
  split; [reflexivity |].
  apply (divide_nonzero (mkCalculationResult nan 7 []) (of_Z 10) (of_Z 4)).
  reflexivity.
Defined.

(** C3. Every [CalculationResult] returned by [divide] satisfies the
    data-model invariant: error code 1 implies a result equal to 0.0 and a
    non-empty message, error code 0 implies the empty message. *)
Theorem divide_invariant (frame : CalculationResult) (a b : double) :
  invariant (divide frame a b) = true.
Proof.
  unfold invariant, message_empty.
  destruct (feq_zero_dec b) as [Hb | Hb].
  - destruct (observe_inv _ _ _ _ (divide_error_branch frame a b Hb))
      as (Hr & Hc & Hm).
    rewrite Hr, Hc, Hm. reflexivity.
  - destruct (observe_inv _ _ _ _ (divide_success_branch frame a b Hb))
      as (Hr & Hc & Hm).
    rewrite Hc, Hm. reflexivity.
Qed.

(** C4. When the operator read is '/', the driver calls [divide] on the two
    operands; with error code 0 it prints the result under [%.2f] and the
    exit status is 0, with error code 1 it prints "Error: " and the message
    and the exit status is 1. *)
Theorem main_division (format_2f : double -> string)
    (result0 frame : CalculationResult) (i : input) :
  operation i = "/"%char ->
  let r := divide frame (num1 i) (num2 i) in
  (error_code r = 0 ->
     run format_2f result0 frame i =
       (0, prompts ++ "Result: " ++ format_2f (result r) ++ newline,
        [CallDivide (num1 i) (num2 i)])) /\
  (error_code r = 1 ->
     run format_2f result0 frame i =
       (1, prompts ++ "Error: " ++ cstring (error_message r) ++ newline,
        [CallDivide (num1 i) (num2 i)])) /\
  (error_code r = 0 \/ error_code r = 1).
Proof.
  intros Hop r. rewrite (run_divide_case format_2f result0 frame i Hop).
  fold r. cbv zeta. repeat split.
  - intros ->. reflexivity.
  - intros ->. reflexivity.
  - subst r. rewrite divide_error_code. destruct (feq (num2 i) zero); auto.
Qed.

Lemma main_division_witness :
  let junk := mkCalculationResult nan 7 [] in
  let fmt := fun _ : double => "2.50"%string in
  run fmt junk junk (mkInput (of_Z 10) "/" (of_Z 4)) =
    (0, prompts ++ "Result: 2.50" ++ newline,
     [CallDivide (of_Z 10) (of_Z 4)]) /\
  run fmt junk junk (mkInput (of_Z 7) "/" zero) =
    (1, prompts ++ "Error: Division by zero error" ++ newline,
     [CallDivide (of_Z 7) zero]).
Proof.
  intros junk fmt. split.
  - destruct (main_division fmt junk junk (mkInput (of_Z 10) "/" (of_Z 4))
                eq_refl) as (Hok & _).
    apply Hok. reflexivity.
  - destruct (main_division fmt junk junk (mkInput (of_Z 7) "/" zero)
                eq_refl) as (_ & Herr & _).
    apply Herr. reflexivity.
Defined.

(** C5. For every operator character other than '+', '-', '*' and '/', the
    driver calls no arithmetic function, prints "Invalid operation!" and the
    exit status is 1. *)
Theorem main_invalid_operation (format_2f : double -> string)
    (result0 frame : CalculationResult) (i : input) :
  operation i <> "+"%char -> operation i <> "-"%char ->
  operation i <> "*"%char -> operation i <> "/"%char ->
  run format_2f result0 frame i =
    (1, prompts ++ "Invalid operation!" ++ newline, []).
Proof. apply run_default_case. Qed.

Lemma main_invalid_operation_witness :
  let junk := mkCalculationResult nan 7 [] in
  run (fun _ => "0.00"%string) junk junk (mkInput (of_Z 4) "%" (of_Z 2)) =
    (1, prompts ++ "Invalid operation!" ++ newline, []).
Proof.
  intros junk.
  apply (main_invalid_operation (fun _ => "0.00"%string) junk junk
           (mkInput (of_Z 4) "%" (of_Z 2))); discriminate.
Defined.

(** C6. For all doubles [a], [b]: [add], [subtract] and [multiply] return
    the IEEE-754 binary64 sum, difference and product; each is a total
    function to a bare double, with no error outcome. *)
Theorem add_subtract_multiply_exact (a b : double) :
  add a b = SFadd 53 1024 a b /\
  subtract a b = SFsub 53 1024 a b /\
  multiply a b = SFmul 53 1024 a b.
Proof. repeat split; reflexivity. Qed.

(** C7. [divide] takes its failure branch exactly when [b == 0.0] under
    IEEE-754 equality, which only the two zeros satisfy: every other double,
    however small, goes to the success branch. *)
Theorem divide_zero_test_exact (frame : CalculationResult) (a b : double) :
  (feq b zero = true ->
     observe (divide frame a b) = (zero, 1, "Division by zero error")) /\
  (feq b zero = false ->
     observe (divide frame a b) = (fdiv a b, 0, "")) /\
  (error_code (divide frame a b) = 1 <-> feq b zero = true) /\
  (feq b zero = true <-> b = zero \/ b = neg_zero) /\
  (forall (s : bool) (m : positive) (e : Z),
     error_code (divide frame a (S754_finite s m e)) = 0).
Proof.
  split; [apply divide_error_branch |].
  split; [apply divide_success_branch |].
  split; [| split].
  - rewrite divide_error_code. destruct (feq b zero); split; congruence.
  - apply feq_zero_iff.
  - intros s m e. now rewrite divide_error_code, feq_finite_zero.
Qed.

Lemma divide_zero_test_exact_witness :
  let frame := mkCalculationResult nan 7 [] in
  observe (divide frame (of_Z 7) neg_zero)
    = (zero, 1, "Division by zero error") /\
  observe (divide frame (of_Z 7) min_subnormal)
    = (fdiv (of_Z 7) min_subnormal, 0, "").
Proof.
  intros frame. split.
  - destruct (divide_zero_test_exact frame (of_Z 7) neg_zero) as (Hz & _).
    apply Hz. reflexivity.
  - destruct (divide_zero_test_exact frame (of_Z 7) min_subnormal)
      as (_ & Hnz & _).
    apply Hnz. reflexivity.
Defined.



(** C9. For every double [a], [divide(a, -0.0)] takes the failure branch:
    negative zero compares equal to 0.0, the error code is 1, the result is
    0.0, and it is not the quotient [a / -0.0]. *)
Theorem divide_by_negative_zero (frame : CalculationResult) (a : double) :
  feq neg_zero zero = true /\
  observe (divide frame a neg_zero) = (zero, 1, "Division by zero error") /\
  result (divide frame a neg_zero) <> fdiv a neg_zero.
Proof.
  split; [reflexivity |].
  split; [now apply divide_error_branch |].
  destruct a as [s|s| |s m e]; discriminate.
Qed.

(** C10. For all doubles [a], [b], [get_max(a, b)] returns [a] if [a > b]
    and [b] otherwise; with [a] NaN the comparison is false and the result is
    [b], while with [b] NaN the result is NaN: the function is not
    symmetric. *)
Theorem get_max_spec (a b : double) :
  (fgt a b = true -> get_max a b = a) /\
  (fgt a b = false -> get_max a b = b) /\
  (fgt a b = true <-> SFcompare a b = Some Gt) /\
  fgt nan b = false /\
  get_max nan b = b /\
  get_max a nan = nan /\
  (b <> nan -> get_max nan b <> get_max b nan).
Proof.
  unfold get_max.
  split; [now intros -> |].
  split; [now intros -> |].
  split; [apply fgt_compare |].
  rewrite fgt_nan_l, !fgt_nan_r. auto.
Qed.

Lemma get_max_spec_witness :
  get_max (of_Z 3) (of_Z 2) = of_Z 3 /\
  get_max (of_Z 2) (of_Z 3) = of_Z 3 /\
  get_max nan (of_Z 1) <> get_max (of_Z 1) nan.
Proof.
  split; [| split].
  - destruct (get_max_spec (of_Z 3) (of_Z 2)) as (Hgt & _).
    apply Hgt. reflexivity.
  - destruct (get_max_spec (of_Z 2) (of_Z 3)) as (_ & Hle & _).
    apply Hle. reflexivity.
  - destruct (get_max_spec (of_Z 1) (of_Z 1)) as (_ & _ & _ & _ & _ & _ & Hnan).
    apply Hnan. discriminate.
Defined.

(** * Further properties of the code *)

(** ** The arithmetic of [add], [subtract] and [multiply] *)

(** [add] and [multiply] do not depend on the order of their operands. *)
Theorem add_multiply_commute (a b : double) :
  add a b = add b a /\ multiply a b = multiply b a.
Proof.
  unfold add, multiply, fadd, fmul. split.
  - destruct a as [sa|sa| |sa ma ea], b as [sb|sb| |sb mb eb];
      try reflexivity; try (destruct sa, sb; reflexivity).
    cbn. now rewrite (Z.min_comm eb ea), Z.add_comm.
  - destruct a as [sa|sa| |sa ma ea], b as [sb|sb| |sb mb eb];
      try reflexivity; try (destruct sa, sb; reflexivity).
    cbn.
    now rewrite (xorb_comm sb sa), (Pos.mul_comm mb ma), (Z.add_comm eb ea).
Qed.


(** Subtracting a double from itself gives positive zero, except for the
    infinities and NaN, which give NaN. *)
Theorem subtract_self (a : double) :
  subtract a a =
    match a with
    | S754_infinity _ | S754_nan => nan
    | _ => zero
    end.
Proof.
  unfold subtract, fsub.
  destruct a as [s|s| |s m e]; try reflexivity; try (now destruct s).
  cbn [SFsub]. cbv zeta. now rewrite Z.sub_diag.
Qed.

(** ** [get_max] and [is_positive] *)

Lemma SFcompare_refl (a : double) :
  a <> nan -> SFcompare a a = Some Eq.
Proof.
  destruct a as [s|s| |s m e]; intros Ha; try (now destruct s).
  - now contradiction Ha.
  - cbn. rewrite Z.compare_refl, Pos.compare_cont_refl. now destruct s.
Qed.

Lemma SFcompare_None (a b : double) :
  SFcompare a b = None -> a = nan \/ b = nan.
Proof.
  destruct a as [sa|sa| |sa ma ea], b as [sb|sb| |sb mb eb]; cbn;
    intros H; try discriminate; auto.
Qed.

Lemma fgt_irrefl (a : double) : fgt a a = false.
Proof.
  unfold fgt, SFltb. destruct a as [s|s| |s m e]; try (now destruct s).
  - reflexivity.
  - now rewrite (SFcompare_refl (S754_finite s m e)).
Qed.

Lemma fgt_asym (a b : double) : fgt a b = true -> fgt b a = false.
Proof.
  unfold fgt, SFltb. rewrite (SFcompare_swap a b).
  destruct (SFcompare a b) as [[| |]|]; cbn; congruence.
Qed.

(** [get_max] returns one of its arguments, neither argument is greater than
    what it returns, and on operands that compare equal it returns the
    second. *)
Theorem get_max_upper_bound (a b : double) :
  (get_max a b = a \/ get_max a b = b) /\
  fgt a (get_max a b) = false /\
  fgt b (get_max a b) = false /\
  (feq a b = true -> get_max a b = b).
Proof.
  unfold get_max. destruct (fgt a b) eqn:Hgt.
  - repeat split; auto using fgt_irrefl, fgt_asym.
    intros Heq. apply fgt_compare in Hgt.
    unfold feq, SFeqb in Heq. rewrite Hgt in Heq. discriminate.
  - repeat split; auto using fgt_irrefl.
Qed.

Lemma get_max_upper_bound_witness :
  feq zero neg_zero = true /\ get_max zero neg_zero = neg_zero.
Proof.
  split; [reflexivity |].
  destruct (get_max_upper_bound zero neg_zero) as (_ & _ & _ & Htie).
  apply Htie. reflexivity.
Defined.

(** Without NaN, swapping the operands of [get_max] gives a result that
    compares equal (it need not be the same double: the two zeros). *)
Theorem get_max_swap_without_nan (a b : double) :
  a <> nan -> b <> nan ->
  feq (get_max a b) (get_max b a) = true.
Proof.
  intros Ha Hb. unfold get_max, fgt, SFltb.
  pose proof (SFcompare_swap a b) as Hswap.
  destruct (SFcompare a b) as [[| |]|] eqn:Hab; cbn in Hswap;
    rewrite Hswap; unfold feq, SFeqb.
  - now rewrite Hswap.
  - now rewrite (SFcompare_refl b Hb).
  - now rewrite (SFcompare_refl a Ha).
  - destruct (SFcompare_None a b Hab); contradiction.
Qed.

Lemma get_max_swap_without_nan_witness :
  feq (get_max zero neg_zero) (get_max neg_zero zero) = true /\
  get_max zero neg_zero <> get_max neg_zero zero.
Proof.
  split.
  - apply (get_max_swap_without_nan zero neg_zero); discriminate.
  - discriminate.
Defined.

(** [is_positive] answers 1 exactly on positive infinity and the finite
    doubles with a clear sign bit, and 0 elsewhere: on both zeros, on NaN and
    on every negative double; a double and its opposite are never both
    positive. *)
Theorem is_positive_spec (x : double) :
  is_positive x =
    match x with
    | S754_infinity false | S754_finite false _ _ => 1
    | _ => 0
    end /\
  (is_positive x = 1 <-> SFcompare x zero = Some Gt) /\
  (is_positive x = 1 -> is_positive (SFopp x) = 0) /\
  (is_positive x = 1 -> get_max x zero = x).
Proof.
  unfold is_positive, get_max.
  split; [destruct x as [s|s| |s m e]; try destruct s; reflexivity |].
  split.
  - rewrite <- fgt_compare. destruct (fgt x zero); split; congruence.
  - split.
    + destruct x as [s|s| |s m e]; try destruct s; cbn; congruence.
    + destruct (fgt x zero); [reflexivity | discriminate].
Qed.

Lemma is_positive_spec_witness :
  is_positive (of_Z 3) = 1 /\
  is_positive (SFopp (of_Z 3)) = 0 /\ get_max (of_Z 3) zero = of_Z 3.
Proof.
  split; [reflexivity |].
  destruct (is_positive_spec (of_Z 3)) as (_ & _ & Hopp & Hmax).
  split; [apply Hopp | apply Hmax]; reflexivity.
Defined.

(** ** The driver on every input *)

Lemma run_add_case (format_2f : double -> string)
    (result0 frame : CalculationResult) (i : input) :
  operation i = "+"%char ->
  run format_2f result0 frame i =
    (0, prompts ++ "Result: " ++ format_2f (add (num1 i) (num2 i)) ++ newline,
     [CallAdd (num1 i) (num2 i)]).
Proof. intros Hop. run_main. rewrite Hop. reflexivity. Qed.

Lemma run_subtract_case (format_2f : double -> string)
    (result0 frame : CalculationResult) (i : input) :
  operation i = "-"%char ->
  run format_2f result0 frame i =
    (0,
     prompts ++ "Result: " ++ format_2f (subtract (num1 i) (num2 i))
       ++ newline,
     [CallSubtract (num1 i) (num2 i)]).
Proof. intros Hop. run_main. rewrite Hop. reflexivity. Qed.

Lemma run_multiply_case (format_2f : double -> string)
    (result0 frame : CalculationResult) (i : input) :
  operation i = "*"%char ->
  run format_2f result0 frame i =
    (0,
     prompts ++ "Result: " ++ format_2f (multiply (num1 i) (num2 i))
       ++ newline,
     [CallMultiply (num1 i) (num2 i)]).
Proof. intros Hop. run_main. rewrite Hop. reflexivity. Qed.

Lemma run_divide_by_operand (format_2f : double -> string)
    (result0 frame : CalculationResult) (i : input) :
  operation i = "/"%char ->
  run format_2f result0 frame i =
    if feq (num2 i) zero
    then (1, prompts ++ "Error: Division by zero error" ++ newline,
          [CallDivide (num1 i) (num2 i)])
    else (0,
          prompts ++ "Result: " ++ format_2f (fdiv (num1 i) (num2 i))
            ++ newline,
          [CallDivide (num1 i) (num2 i)]).
Proof.
  intros Hop. rewrite (run_divide_case format_2f result0 frame i Hop).
  cbv zeta. destruct (feq_zero_dec (num2 i)) as [Hb | Hb]; rewrite Hb.
  - destruct (observe_inv _ _ _ _
                (divide_error_branch frame (num1 i) (num2 i) Hb))
      as (Hr & Hc & Hm).
    rewrite Hc, Hm. reflexivity.
  - destruct (observe_inv _ _ _ _
                (divide_success_branch frame (num1 i) (num2 i) Hb))
      as (Hr & Hc & Hm).
    rewrite Hc, Hr. reflexivity.
Qed.

Lemma operator_cases (c : ascii) :
  c = "+"%char \/ c = "-"%char \/ c = "*"%char \/ c = "/"%char \/
  (c <> "+"%char /\ c <> "-"%char /\ c <> "*"%char /\ c <> "/"%char).
Proof.
  destruct (Ascii.eqb_spec c "+"); [now left | right].
  destruct (Ascii.eqb_spec c "-"); [now left | right].
  destruct (Ascii.eqb_spec c "*"); [now left | right].
  destruct (Ascii.eqb_spec c "/"); [now left | right].
  auto.
Qed.

(** Splits on the operator and rewrites the run into its closed form. *)
Ltac run_by_operator fmt r0 fr i :=
  destruct (operator_cases (operation i))
    as [Hop | [Hop | [Hop | [Hop | (Hadd & Hsub & Hmul & Hdiv)]]]];
  [ rewrite (run_add_case fmt r0 fr i Hop)
  | rewrite (run_subtract_case fmt r0 fr i Hop)
  | rewrite (run_multiply_case fmt r0 fr i Hop)
  | rewrite (run_divide_by_operand fmt r0 fr i Hop)
  | rewrite (run_default_case fmt r0 fr i Hadd Hsub Hmul Hdiv) ].

(** With operator '+', '-' or '*' the driver calls the matching function
    once on the two operands, prints its value under [%.2f] and exits with
    status 0, whatever the operands are. *)
Theorem main_arithmetic (format_2f : double -> string)
    (result0 frame : CalculationResult) (i : input) :
  (operation i = "+"%char ->
     run format_2f result0 frame i =
       (0,
        prompts ++ "Result: " ++ format_2f (add (num1 i) (num2 i))
          ++ newline,
        [CallAdd (num1 i) (num2 i)])) /\
  (operation i = "-"%char ->
     run format_2f result0 frame i =
       (0,
        prompts ++ "Result: " ++ format_2f (subtract (num1 i) (num2 i))
          ++ newline,
        [CallSubtract (num1 i) (num2 i)])) /\
  (operation i = "*"%char ->
     run format_2f result0 frame i =
       (0,
        prompts ++ "Result: " ++ format_2f (multiply (num1 i) (num2 i))
          ++ newline,
        [CallMultiply (num1 i) (num2 i)])).
Proof.
  repeat split.
  - apply run_add_case.
  - apply run_subtract_case.
  - apply run_multiply_case.
Qed.

Lemma main_arithmetic_witness :
  let junk := mkCalculationResult nan 7 [] in
  let fmt := fun _ : double => "27.00" in
  run fmt junk junk (mkInput (of_Z 9) "*" (of_Z 3)) =
    (0, prompts ++ "Result: 27.00" ++ newline,
     [CallMultiply (of_Z 9) (of_Z 3)]).
Proof.
  intros junk fmt.
  destruct (main_arithmetic fmt junk junk (mkInput (of_Z 9) "*" (of_Z 3)))
    as (_ & _ & Hmul).
  apply Hmul. reflexivity.
Defined.

(** With operator '/', what the driver does is decided by the second
    operand alone: if it compares equal to 0.0 the division-by-zero line and
    status 1, otherwise the quotient and status 0. *)
Theorem main_division_by_operand (format_2f : double -> string)
    (result0 frame : CalculationResult) (i : input) :
  operation i = "/"%char ->
  (feq (num2 i) zero = true ->
     run format_2f result0 frame i =
       (1, prompts ++ "Error: Division by zero error" ++ newline,
        [CallDivide (num1 i) (num2 i)])) /\
  (feq (num2 i) zero = false ->
     run format_2f result0 frame i =
       (0,
        prompts ++ "Result: " ++ format_2f (fdiv (num1 i) (num2 i))
          ++ newline,
        [CallDivide (num1 i) (num2 i)])).
Proof.
  intros Hop. rewrite (run_divide_by_operand format_2f result0 frame i Hop).
  split; intros ->; reflexivity.
Qed.

Lemma main_division_by_operand_witness :
  let junk := mkCalculationResult nan 7 [] in
  let fmt := fun _ : double => "-inf" in
  run fmt junk junk (mkInput (of_Z 7) "/" neg_zero) =
    (1, prompts ++ "Error: Division by zero error" ++ newline,
     [CallDivide (of_Z 7) neg_zero]).
Proof.
  intros junk fmt.
  destruct (main_division_by_operand fmt junk junk
              (mkInput (of_Z 7) "/" neg_zero) eq_refl) as (Hzero & _).
  apply Hzero. reflexivity.
Defined.

(** The exit status is 0 or 1, and it is 1 in two situations only: a
    division whose second operand compares equal to 0.0, and an operator
    outside '+', '-', '*', '/'. *)
Theorem main_exit_status (format_2f : double -> string)
    (result0 frame : CalculationResult) (i : input) :
  let status := fst (fst (run format_2f result0 frame i)) in
  (status = 0 \/ status = 1) /\
  (status = 1 <->
     (operation i = "/"%char /\ feq (num2 i) zero = true) \/
     (operation i <> "+"%char /\ operation i <> "-"%char /\
      operation i <> "*"%char /\ operation i <> "/"%char)).
Proof.
  cbv zeta. run_by_operator format_2f result0 frame i.
  - cbn. split; [auto |]. split; [discriminate |].
    intros [[H _] | (H & _)]; [rewrite Hop in H; discriminate | tauto].
  - cbn. split; [auto |]. split; [discriminate |].
    intros [[H _] | (_ & H & _)]; [rewrite Hop in H; discriminate | tauto].
  - cbn. split; [auto |]. split; [discriminate |].
    intros [[H _] | (_ & _ & H & _)];
      [rewrite Hop in H; discriminate | tauto].
  - destruct (feq (num2 i) zero); cbn.
    + split; [auto |]. split; auto.
    + split; [auto |]. split; [discriminate |].
      intros [[_ H] | (_ & _ & _ & H)]; [discriminate | tauto].
  - cbn. split; [auto |]. split; auto.
Qed.

(** Nothing the driver prints or returns depends on what its uninitialised
    locals held: the [result] of [main] and the [calc_result] of
    [divide]. *)
Theorem main_ignores_uninitialised (format_2f : double -> string)
    (result0 frame result0' frame' : CalculationResult) (i : input) :
  run format_2f result0 frame i = run format_2f result0' frame' i.
Proof.
  destruct (operator_cases (operation i))
    as [Hop | [Hop | [Hop | [Hop | (Hadd & Hsub & Hmul & Hdiv)]]]].
  - now rewrite !run_add_case.
  - now rewrite !run_subtract_case.
  - now rewrite !run_multiply_case.
  - now rewrite !run_divide_by_operand.
  - now rewrite !run_default_case.
Qed.

(** On every input the driver writes the banner and the three prompts and
    then one of three texts followed by a newline: "Result: " with a double
    under [%.2f], the division-by-zero error, or "Invalid operation!"; it
    calls at most one arithmetic function. *)
Theorem main_output_shape (format_2f : double -> string)
    (result0 frame : CalculationResult) (i : input) :
  (exists line : string,
     snd (fst (run format_2f result0 frame i)) = prompts ++ line ++ newline /\
     (line = "Error: Division by zero error" \/
      line = "Invalid operation!" \/
      exists v : double, line = "Result: " ++ format_2f v)) /\
  (List.length (snd (run format_2f result0 frame i)) <= 1)%nat.
Proof.
  run_by_operator format_2f result0 frame i; cbn [fst snd].
  - split; [| cbn; lia].
    exists ("Result: " ++ format_2f (add (num1 i) (num2 i))). eauto.
  - split; [| cbn; lia].
    exists ("Result: " ++ format_2f (subtract (num1 i) (num2 i))). eauto.
  - split; [| cbn; lia].
    exists ("Result: " ++ format_2f (multiply (num1 i) (num2 i))). eauto.
  - destruct (feq (num2 i) zero); cbn [fst snd]; (split; [| cbn; lia]).
    + exists "Error: Division by zero error". auto.
    + exists ("Result: " ++ format_2f (fdiv (num1 i) (num2 i))). eauto.
  - split; [| cbn; lia].
    exists "Invalid operation!". auto.
Qed.

(** ** The message array of [divide] *)

(** [strcpy] leaves every position after the copied string and its NUL as
    it was. *)
Lemma skipn_strcpy (dst : list ascii) (src : string) (n : nat) :
  (S (String.length src) <= n)%nat ->
  skipn n (strcpy dst src) = skipn n dst.
Proof.
  intros Hn. unfold strcpy.
  rewrite skipn_app, length_list_ascii_of_string.
  rewrite (skipn_all2 (list_ascii_of_string src))
    by (rewrite length_list_ascii_of_string; lia).
  replace (n - String.length src)%nat
    with (S (n - S (String.length src))) by lia.
  rewrite app_nil_l, skipn_cons, skipn_skipn. f_equal. lia.
Qed.

(** [divide] stays inside its 256-character array: the array keeps its
    size, and only the first 23 positions, the longest message and its NUL,
    can change. *)
Theorem divide_message_in_bounds (frame : CalculationResult)
    (a b : double) :
  List.length (error_message frame) = 256%nat ->
  List.length (error_message (divide frame a b)) = 256%nat /\
  skipn 23 (error_message (divide frame a b))
    = skipn 23 (error_message frame).
Proof.
  intros Hlen. split; [now apply divide_message_length |].
  unfold divide.
  destruct (feq b zero);
    cbn [result error_code error_message set_result set_error_code
         set_error_message];
    apply skipn_strcpy; cbn; lia.
Qed.

Lemma divide_message_in_bounds_witness :
  let frame := mkCalculationResult nan 7 (repeat "x"%char 256) in
  List.length (error_message (divide frame (of_Z 7) zero)) = 256%nat /\
  skipn 23 (error_message (divide frame (of_Z 7) zero))
    = skipn 23 (error_message frame).
Proof.
  intros frame. apply (divide_message_in_bounds frame (of_Z 7) zero).
  reflexivity.
Defined.

(** A NaN operand is not an error for [divide]: with a NaN divisor, or a NaN
    dividend over a divisor that is not zero, it reports code 0, the empty
    message and a NaN result. *)
Theorem divide_nan_operand (frame : CalculationResult) (a b : double) :
  observe (divide frame a nan) = (nan, 0, "") /\
  (feq b zero = false -> observe (divide frame nan b) = (nan, 0, "")).
Proof.
  split.
  - rewrite (divide_success_branch frame a nan eq_refl).
    now destruct a.
  - intros Hb. rewrite (divide_success_branch frame nan b Hb).
    reflexivity.
Qed.

Lemma divide_nan_operand_witness :
  let frame := mkCalculationResult zero 7 [] in
  observe (divide frame nan (of_Z 2)) = (nan, 0, "").
Proof.
  intros frame.
  destruct (divide_nan_operand frame zero (of_Z 2)) as (_ & Hnan).
  apply Hnan. reflexivity.
Defined.

(** ** [format_message] *)

Lemma nul_free_substring (s : string) (n : nat) :
  nul_free s = true -> nul_free (substring 0 n s) = true.
Proof.
  revert n. induction s as [|c s IH]; intros [|n] Hs; try reflexivity.
  cbn in Hs. apply andb_prop in Hs as [Hc Hrest].
  cbn. rewrite Hc. now apply IH.
Qed.

Lemma length_substring_le (s : string) (n : nat) :
  (String.length (substring 0 n s) <= n)%nat.
Proof.
  revert n. induction s as [|c s IH]; intros [|n]; cbn; try lia.
  specialize (IH n). lia.
Qed.

Lemma substring_all (s : string) (n : nat) :
  (String.length s <= n)%nat -> substring 0 n s = s.
Proof.
  revert n. induction s as [|c s IH]; intros [|n] Hn; cbn in *;
    try reflexivity; try lia.
  f_equal. apply IH. lia.
Qed.

(** [format_message] does nothing when a pointer is [NULL]. Otherwise the
    array ends up holding the first 255 characters of the formatted text
    (all of it when it is that short), NUL-terminated; the array keeps its
    size and nothing from position 256 on is written. *)
Theorem format_message_spec (c_format : string -> double -> string)
    (buffer : option (list ascii)) (format : option string)
    (value : double) :
  format_message c_format None format value = None /\
  format_message c_format buffer None value = buffer /\
  (forall (chars : list ascii) (fmt : string),
     nul_free (c_format fmt value) = true ->
     (256 <= List.length chars)%nat ->
     exists out : list ascii,
       format_message c_format (Some chars) (Some fmt) value = Some out /\
       cstring out = substring 0 255 (c_format fmt value) /\
       (String.length (cstring out) <= 255)%nat /\
       ((String.length (c_format fmt value) <= 255)%nat ->
          cstring out = c_format fmt value) /\
       List.length out = List.length chars /\
       skipn 256 out = skipn 256 chars).
Proof.
  split; [reflexivity |].
  split; [now destruct buffer |].
  intros chars fmt Hnul Hlen.
  pose proof (length_substring_le (c_format fmt value) 255) as Hle.
  assert (Hstr : cstring (snprintf c_format chars 256 fmt value)
                 = substring 0 255 (c_format fmt value)).
  { unfold snprintf. apply cstring_strcpy. now apply nul_free_substring. }
  exists (snprintf c_format chars 256 fmt value).
  split; [reflexivity |].
  split; [exact Hstr |].
  split; [now rewrite Hstr |].
  split; [intros Hshort; now rewrite Hstr, substring_all |].
  unfold snprintf. split.
  - apply strcpy_length. lia.
  - apply skipn_strcpy. lia.
Qed.

Lemma format_message_spec_witness :
  let c_format := fun (_ : string) (_ : double) => "Value: 2.50" in
  let chars := repeat "x"%char 300 in
  exists out : list ascii,
    format_message c_format (Some chars) (Some "Value: %.2f") (of_Z 2)
      = Some out /\
    cstring out = "Value: 2.50" /\
    List.length out = 300%nat.
Proof.
  intros c_format chars.
  destruct (format_message_spec c_format None None (of_Z 2))
    as (_ & _ & Hwrite).
  destruct (Hwrite chars "Value: %.2f" eq_refl)
    as (out & Hout & Hstr & _ & _ & Hlen & _).
  - vm_compute. lia.
  - exists out. split; [exact Hout |]. split; [exact Hstr | exact Hlen].
Defined.
